(** * Squelch.h: the squelch base class and its hangtime debounce

    A shallow embedding of [class Squelch] (svxlink/svxlink/Squelch.h) and
    the properties of its open/close state machine.

    - The private fields become the record [Squelch].
    - [int] is a 32 bit two's complement integer, carried as a [Z]; the two
      arithmetic operations of the class ([-=] in [audioIn], [*8] in
      [initialize]) are written with their wrap-around ([to_int]).
    - Methods are computations in a small state-and-writer monad [M]: they
      thread the fields and collect the values emitted on the [squelchOpen]
      signal, in order.
    - The pure virtual [processSamples] is supplied by a derived class. All
      it can do to the base object goes through the methods it may call;
      its behaviour is a command tree [Prog] over [setOpen], [setHangtime]
      and [isOpen].
    - [Async::Config] is a map from section names to maps from tags to
      values.
    - Slots connected to [squelchOpen] run synchronously inside the
      emitting call; they are taken not to call back into the object, so
      an emission is just recorded. *)

From stdpp Require Import base gmap strings list.
From Stdlib Require Import ZArith Lia Ascii String.

Local Open Scope Z_scope.

(** ** Machine integers *)

Module Int.

Definition INT_MIN : Z := - 2 ^ 31.
Definition INT_MAX : Z := 2 ^ 31 - 1.

Definition in_range (z : Z) : Prop := INT_MIN <= z <= INT_MAX.

(** The value an [int] holds after a computation whose mathematical
    result is [z]. *)
Definition to_int (z : Z) : Z := (z + 2 ^ 31) mod 2 ^ 32 - 2 ^ 31.

Definition sub (a b : Z) : Z := to_int (a - b).
Definition mul (a b : Z) : Z := to_int (a * b).

End Int.

(** ** The C library's [atoi]

    As the GNU C library computes it on a target with a 64 bit [long]. *)

Module Libc.

Definition code (c : ascii) : Z := Z.of_N (N_of_ascii c).

(** [isspace] in the C locale: space, and the controls \t \n \v \f \r. *)
Definition isspace (c : ascii) : bool :=
  (code c =? 32) || ((9 <=? code c) && (code c <=? 13)).

Definition digit (c : ascii) : option Z :=
  if (48 <=? code c) && (code c <=? 57) then Some (code c - 48) else None.

Fixpoint skip_space (s : string) : string :=
  match s with
  | String c rest => if isspace c then skip_space rest else s
  | EmptyString => s
  end.

(** The value of the longest prefix of decimal digits, continuing [acc]. *)
Fixpoint digits (acc : Z) (s : string) : Z :=
  match s with
  | String c rest =>
      match digit c with
      | Some d => digits (acc * 10 + d) rest
      | None => acc
      end
  | EmptyString => acc
  end.

(** An optional sign in front of the digits: is it a minus, and what
    follows it. *)
Definition sign (s : string) : bool * string :=
  match s with
  | String c rest =>
      if Ascii.eqb c "-" then (true, rest)
      else if Ascii.eqb c "+" then (false, rest)
      else (false, s)
  | EmptyString => (false, s)
  end.

(** [long] has 64 bits (LP64). *)
Definition LONG_MIN : Z := - 2 ^ 63.
Definition LONG_MAX : Z := 2 ^ 63 - 1.

(** [strtol(s, NULL, 10)]: leading white space, an optional sign, then
    decimal digits; what follows the digits is ignored, and no digits at
    all give 0. A value outside the range of [long] is replaced by the
    nearest bound of that range. *)
Definition strtol (s : string) : Z :=
  let body := sign (skip_space s) in
  let v := digits 0 (snd body) in
  Z.max LONG_MIN (Z.min LONG_MAX (if fst body then - v else v)).

(** [atoi(s)] is [(int) strtol(s, NULL, 10)]: the conversion to [int]
    keeps the low 32 bits of the [long]. Within the range of [int] this
    is the number written in [s]. *)
Definition atoi (s : string) : Z := Int.to_int (strtol s).

(** Does the text start, after white space and a sign, with a digit? *)
Definition starts_numeric (s : string) : bool :=
  match snd (sign (skip_space s)) with
  | String c _ => match digit c with Some _ => true | None => false end
  | EmptyString => false
  end.

End Libc.

(** ** [Async::Config] *)

Module Config.

(** Modelled from the spec: [Async::Config] (AsyncConfig.h) is a
    key/value lookup keyed by a section (the channel name) and a tag,
    returning a string; [getValue] reports whether the tag is present. *)
Definition getValue (cfg : gmap string (gmap string string))
    (section tag : string) : option string :=
  match cfg !! section with
  | Some tags => tags !! tag
  | None => None
  end.

End Config.

(** ** The object and its methods *)

Record Squelch : Type := mkSquelch {
  m_name : string;
  m_open : bool;
  hangtime : Z;
  hangtime_left : Z
}.

(** What a method call leaves behind: its return value, the fields, and
    the arguments [squelchOpen] was emitted with during the call. *)
Record Res (A : Type) : Type := mkRes {
  val : A;
  st : Squelch;
  emitted : list bool
}.
Arguments mkRes {A} _ _ _.
Arguments val {A} _.
Arguments st {A} _.
Arguments emitted {A} _.

Definition M (A : Type) : Type := Squelch -> Res A.

Definition ret {A : Type} (a : A) : M A := fun s => mkRes a s [].

Definition bind {A B : Type} (c : M A) (k : A -> M B) : M B :=
  fun s =>
    let r1 := c s in
    let r2 := k (val r1) (st r1) in
    mkRes (val r2) (st r2) (emitted r1 ++ emitted r2).

Declare Scope sq_scope.
Delimit Scope sq_scope with sq.
Notation "x <- c ;; k" := (bind c (fun x => k))
  (at level 100, c at next level, right associativity) : sq_scope.
Notation "c ;; k" := (bind c (fun _ => k))
  (at level 100, right associativity) : sq_scope.
Local Open Scope sq_scope.

Definition get {A : Type} (field : Squelch -> A) : M A :=
  fun s => mkRes (field s) s [].

Definition set_m_open (b : bool) : M unit :=
  fun s => mkRes tt (mkSquelch (m_name s) b (hangtime s) (hangtime_left s)) [].

Definition set_hangtime (h : Z) : M unit :=
  fun s => mkRes tt (mkSquelch (m_name s) (m_open s) h (hangtime_left s)) [].

Definition set_hangtime_left (h : Z) : M unit :=
  fun s => mkRes tt (mkSquelch (m_name s) (m_open s) (hangtime s) h) [].

(** Emitting the signal [squelchOpen(is_open)]. *)
Definition squelchOpen (is_open : bool) : M unit :=
  fun s => mkRes tt s [is_open].

(** [Squelch(void) : m_open(false), hangtime(1), hangtime_left(0)] *)
Definition Squelch_new : Squelch := mkSquelch EmptyString false 1 0.

Definition setHangtime (hang_samples : Z) : M unit :=
  set_hangtime (if 1 <=? hang_samples then hang_samples else 1).

Definition initialize (cfg : gmap string (gmap string string))
    (rx_name : string) : M bool :=
  let sql_hangtime :=
    match Config.getValue cfg rx_name "SQL_HANGTIME" with
    | Some value => Int.mul (Libc.atoi value) 8
    | None => 0
    end in
  setHangtime sql_hangtime ;;
  ret true.

Definition isOpen : M bool :=
  open <- get m_open ;;
  left <- get hangtime_left ;;
  ret (open || (0 <? left)).

Definition setOpen (is_open : bool) : M unit :=
  if is_open then
    set_hangtime_left 0 ;;
    open <- get m_open ;;
    if negb open then
      set_m_open true ;;
      squelchOpen true
    else ret tt
  else
    open <- get m_open ;;
    left <- get hangtime_left ;;
    if open && (left <=? 0) then
      h <- get hangtime ;;
      set_hangtime_left h
    else ret tt.

(** *** The detector

    What one run of a derived class's [processSamples] does, seen from the
    base object: a tree of calls to [setOpen], [setHangtime] and
    [isOpen], ending in the number of samples it reports as processed.
    The private fields are out of its reach; [IsOpen] lets the run depend
    on the state it observes. *)
Inductive Prog (A : Type) : Type :=
| Return (a : A)
| SetOpen (is_open : bool) (k : Prog A)
| SetHangtime (hang_samples : Z) (k : Prog A)
| IsOpen (k : bool -> Prog A).
Arguments Return {A} _.
Arguments SetOpen {A} _ _.
Arguments SetHangtime {A} _ _.
Arguments IsOpen {A} _.

Fixpoint exec {A : Type} (p : Prog A) : M A :=
  match p with
  | Return a => ret a
  | SetOpen is_open k => setOpen is_open ;; exec k
  | SetHangtime hang_samples k => setHangtime hang_samples ;; exec k
  | IsOpen k => b <- isOpen ;; exec (k b)
  end.

(** The arguments of the [setOpen] calls made while [p] runs from [s]. *)
Fixpoint requests {A : Type} (p : Prog A) (s : Squelch) : list bool :=
  match p with
  | Return _ => []
  | SetOpen is_open k => is_open :: requests k (st (setOpen is_open s))
  | SetHangtime hang_samples k => requests k (st (setHangtime hang_samples s))
  | IsOpen k => requests (k (val (isOpen s))) s
  end.

Section AudioIn.

(** The override of the pure virtual [processSamples] in effect at the
    call; [samples] is the buffer of 16 bit samples. *)
Variable processSamples : list Z -> Z -> Prog Z.

Definition audioIn (samples : list Z) (count : Z) : M Z :=
  ret_count <- exec (processSamples samples count) ;;
  left <- get hangtime_left ;;
  (if 0 <? left then
     set_hangtime_left (Int.sub left count) ;;
     left' <- get hangtime_left ;;
     if left' <=? 0 then
       set_m_open false ;;
       squelchOpen false
     else ret tt
   else ret tt) ;;
  ret ret_count.

End AudioIn.

(** ** Sequences of calls

    The calls an object receives over its life. [CallAudioIn] carries the
    override that runs at that call, so a detector with fields of its own
    appears as a different function from one call to the next.
    [CallSetOpen] is a [setOpen] made by the derived class outside
    [processSamples]. *)

Inductive Call : Type :=
| CallSetOpen (is_open : bool)
| CallSetHangtime (hang_samples : Z)
| CallInitialize (cfg : gmap string (gmap string string)) (rx_name : string)
| CallAudioIn (processSamples : list Z -> Z -> Prog Z)
              (samples : list Z) (count : Z).

Definition call (c : Call) : M unit :=
  match c with
  | CallSetOpen is_open => setOpen is_open
  | CallSetHangtime hang_samples => setHangtime hang_samples
  | CallInitialize cfg rx_name => initialize cfg rx_name ;; ret tt
  | CallAudioIn processSamples samples count =>
      audioIn processSamples samples count ;; ret tt
  end.

Fixpoint run (cs : list Call) : M unit :=
  match cs with
  | [] => ret tt
  | c :: rest => call c ;; run rest
  end.

(** The arguments of all [setOpen] calls made during [run cs], those of
    the detector included. *)
Definition call_requests (c : Call) (s : Squelch) : list bool :=
  match c with
  | CallSetOpen is_open => [is_open]
  | CallAudioIn processSamples samples count =>
      requests (processSamples samples count) s
  | _ => []
  end.

Fixpoint run_requests (cs : list Call) (s : Squelch) : list bool :=
  match cs with
  | [] => []
  | c :: rest => call_requests c s ++ run_requests rest (st (call c s))
  end.

(** ** Some detectors

    Overrides of [processSamples] to run the base class with. *)

Module Demo.

(** Consumes the block and never touches the squelch. *)
Definition idle (samples : list Z) (count : Z) : Prog Z := Return count.

(** Opens on a block holding a sample louder than [threshold], closes on
    any other. *)
Definition level (threshold : Z) (samples : list Z) (count : Z) : Prog Z :=
  SetOpen (existsb (fun x => threshold <? Z.abs x) samples) (Return count).

(** Consumes half of the block and never touches the squelch. *)
Definition partial (samples : list Z) (count : Z) : Prog Z :=
  Return (count / 2).

(** Confirms an open squelch on every block, and leaves a closed one
    closed. *)
Definition keep (samples : list Z) (count : Z) : Prog Z :=
  IsOpen (fun open => if open then SetOpen true (Return count)
                      else Return count).

End Demo.

(** ** State predicates *)

(** A countdown is running only on an open squelch. *)
Definition hang_only_when_open (s : Squelch) : Prop :=
  0 < hangtime_left s -> m_open s = true.

(** The hang window: the configured hangtime is at least one sample, the
    countdown is never negative on an open squelch and never positive on
    a closed one. *)
Definition hang_window (s : Squelch) : Prop :=
  1 <= hangtime s /\
  (m_open s = true -> 0 <= hangtime_left s) /\
  (m_open s = false -> hangtime_left s <= 0).

(** Open with no countdown running: the detector reports a signal. *)
Definition active_open (s : Squelch) : Prop :=
  m_open s = true /\ hangtime_left s = 0.

(** ** The rest of the class, and what the further properties speak of *)

(** [virtual void reset(void) {}]: nothing to reset in the base class. *)
Definition reset : M unit := ret tt.

(** Opens and at once reports the signal gone again. *)
Definition blip (samples : list Z) (count : Z) : Prog Z :=
  SetOpen true (SetOpen false (Return count)).

(** Each notification is the opposite of the one before it, the first the
    opposite of [prev]. *)
Fixpoint alternates (prev : bool) (ev : list bool) : Prop :=
  match ev with
  | [] => True
  | e :: rest => e = negb prev /\ alternates e rest
  end.

(** The samples passed to [audioIn] over a sequence of calls. *)
Fixpoint samples_fed (cs : list Call) : Z :=
  match cs with
  | [] => 0
  | CallAudioIn _ _ count :: rest => count + samples_fed rest
  | _ :: rest => samples_fed rest
  end.

(** Every block passed to [audioIn] has a length that is not negative
    (and is an [int]). *)
Fixpoint blocks_fit (cs : list Call) : Prop :=
  match cs with
  | [] => True
  | CallAudioIn _ _ count :: rest =>
      0 <= count <= Int.INT_MAX /\ blocks_fit rest
  | _ :: rest => blocks_fit rest
  end.

(** [setOpen(false)] has nothing to start: the squelch is closed, or the
    countdown is running already. *)
Definition close_pending_or_closed (s : Squelch) : Prop :=
  m_open s = false \/ 0 < hangtime_left s.

(** * Properties *)

(** ** Machine integers and [atoi] *)

Lemma to_int_in_range (z : Z) : Int.in_range z -> Int.to_int z = z.
Proof.
  unfold Int.in_range, Int.INT_MIN, Int.INT_MAX, Int.to_int. intros Hz.
  rewrite Z.mod_small by lia. lia.
Qed.

Lemma to_int_range (z : Z) : Int.in_range (Int.to_int z).
Proof.
  unfold Int.in_range, Int.INT_MIN, Int.INT_MAX, Int.to_int.
  pose proof (Z.mod_pos_bound (z + 2 ^ 31) (2 ^ 32) ltac:(lia)). lia.
Qed.

Example atoi_100 : Libc.atoi "100" = 100.
Proof. reflexivity. Qed.

Example atoi_blank_sign_tail : Libc.atoi "  -42 ms" = -42.
Proof. reflexivity. Qed.

Example atoi_text : Libc.atoi "fast" = 0.
Proof. reflexivity. Qed.

Example atoi_low_bits : Libc.atoi "4294967396" = 100.
Proof. reflexivity. Qed.

Example atoi_beyond_long :
  Libc.atoi "9223372036854775808" = -1 /\
  Libc.atoi "18446744073709551716" = -1 /\
  Libc.atoi "-9223372036854775809" = 0.
Proof. repeat split; vm_compute; reflexivity. Qed.

Lemma atoi_not_numeric (value : string) :
  Libc.starts_numeric value = false -> Libc.atoi value = 0.
Proof.
  unfold Libc.starts_numeric, Libc.atoi, Libc.strtol.
  destruct (Libc.sign (Libc.skip_space value)) as [neg body]; simpl.
  destruct body as [|c rest]; simpl.
  - intros _. destruct neg; reflexivity.
  - destruct (Libc.digit c); [discriminate|].
    intros _. destruct neg; reflexivity.
Qed.

(** ** The methods, one by one *)

Ltac sq_unfold :=
  unfold initialize, setOpen, setHangtime, isOpen, bind, ret, get,
    set_m_open, set_hangtime, set_hangtime_left, squelchOpen in *;
  cbn [val st emitted m_name m_open hangtime hangtime_left app] in *.

Lemma setHangtime_eq (hang_samples : Z) (s : Squelch) :
  setHangtime hang_samples s =
  mkRes tt (mkSquelch (m_name s) (m_open s) (Z.max hang_samples 1)
              (hangtime_left s)) [].
Proof.
  sq_unfold. destruct (Z.leb_spec 1 hang_samples);
    do 2 f_equal; lia.
Qed.

Lemma setOpen_true_eq (s : Squelch) :
  setOpen true s =
  mkRes tt (mkSquelch (m_name s) true (hangtime s) 0)
        (if m_open s then [] else [true]).
Proof. sq_unfold. destruct (m_open s); reflexivity. Qed.

Lemma setOpen_false_eq (s : Squelch) :
  setOpen false s =
  mkRes tt
    (if m_open s && (hangtime_left s <=? 0)
     then mkSquelch (m_name s) (m_open s) (hangtime s) (hangtime s)
     else s) [].
Proof.
  sq_unfold. destruct (m_open s && (hangtime_left s <=? 0)); reflexivity.
Qed.

Lemma isOpen_eq (s : Squelch) :
  isOpen s = mkRes (m_open s || (0 <? hangtime_left s)) s [].
Proof. reflexivity. Qed.

(** C7. [setHangtime(s)] stores [max(s, 1)] as the hangtime, so 0 and -5
    both give 1; the countdown in progress, the open flag and the
    notifications are left alone. *)
Theorem setHangtime_clamps (hang_samples : Z) (s : Squelch) :
  hangtime (st (setHangtime hang_samples s)) = Z.max hang_samples 1 /\
  hangtime (st (setHangtime 0 s)) = 1 /\
  hangtime (st (setHangtime (-5) s)) = 1 /\
  hangtime_left (st (setHangtime hang_samples s)) = hangtime_left s /\
  m_open (st (setHangtime hang_samples s)) = m_open s /\
  emitted (setHangtime hang_samples s) = [].
Proof. rewrite !setHangtime_eq. cbn. repeat split; lia. Qed.

(** C2. [setOpen(true)] clears the countdown. From a closed squelch it
    sets [m_open] and emits one notification, [true]; on an open squelch
    it emits nothing. *)
Theorem setOpen_true_opens (s : Squelch) :
  hangtime_left (st (setOpen true s)) = 0 /\
  m_open (st (setOpen true s)) = true /\
  hangtime (st (setOpen true s)) = hangtime s /\
  (m_open s = false -> emitted (setOpen true s) = [true]) /\
  (m_open s = true ->
   emitted (setOpen true s) = [] /\
   emitted (setOpen true (st (setOpen true s))) = []).
Proof.
  rewrite !setOpen_true_eq. cbn.
  destruct (m_open s); repeat split; intros; congruence.
Qed.

Lemma setOpen_true_opens_witness :
  emitted (setOpen true Squelch_new) = [true] /\
  emitted (setOpen true (st (setOpen true Squelch_new))) = [].
Proof.
  split.
  - apply (setOpen_true_opens Squelch_new). reflexivity.
  - apply (setOpen_true_opens (st (setOpen true Squelch_new))). reflexivity.
Defined.

(** C3. [setOpen(false)] never emits and never changes [m_open]. It
    starts the countdown at [hangtime] exactly when the squelch is open
    and no countdown is running; with a countdown running, or on a closed
    squelch, the object is left as it was. *)
Theorem setOpen_false_defers (s : Squelch) :
  emitted (setOpen false s) = [] /\
  m_open (st (setOpen false s)) = m_open s /\
  hangtime (st (setOpen false s)) = hangtime s /\
  (m_open s = true -> hangtime_left s <= 0 ->
   hangtime_left (st (setOpen false s)) = hangtime s) /\
  (0 < hangtime_left s -> st (setOpen false s) = s) /\
  (m_open s = false -> st (setOpen false s) = s).
Proof.
  rewrite !setOpen_false_eq. cbn.
  destruct (m_open s) eqn:Ho, (Z.leb_spec (hangtime_left s) 0); cbn;
    repeat split; intros; try reflexivity; try congruence; try lia.
Qed.

Lemma setOpen_false_defers_witness :
  hangtime_left (st (setOpen false (mkSquelch "" true 800 0))) = 800 /\
  st (setOpen false (mkSquelch "" true 800 400)) = mkSquelch "" true 800 400.
Proof.
  split.
  - apply (setOpen_false_defers (mkSquelch "" true 800 0)); [reflexivity|].
    cbn. lia.
  - destruct (setOpen_false_defers (mkSquelch "" true 800 400))
      as (_ & _ & _ & _ & Hactive & _).
    apply Hactive. cbn. lia.
Defined.

(** ** Running a detector and [audioIn] *)

Lemma exec_preserves {A : Type} (P : Squelch -> Prop) :
  (forall is_open s, P s -> P (st (setOpen is_open s))) ->
  (forall hang_samples s, P s -> P (st (setHangtime hang_samples s))) ->
  forall (p : Prog A) (s : Squelch), P s -> P (st (exec p s)).
Proof.
  intros Hopen Hhang p.
  induction p as [a | b k IH | h k IH | k IH]; intros s Hs; cbn [exec].
  - exact Hs.
  - unfold bind; cbn [st]. apply IH, Hopen, Hs.
  - unfold bind; cbn [st]. apply IH, Hhang, Hs.
  - unfold bind; cbn [st]. rewrite isOpen_eq; cbn [st val]. apply IH, Hs.
Qed.

Lemma audioIn_eq (processSamples : list Z -> Z -> Prog Z)
    (samples : list Z) (count : Z) (s : Squelch) :
  audioIn processSamples samples count s =
  let mid := exec (processSamples samples count) s in
  let left := Int.sub (hangtime_left (st mid)) count in
  if 0 <? hangtime_left (st mid) then
    if left <=? 0 then
      mkRes (val mid)
        (mkSquelch (m_name (st mid)) false (hangtime (st mid)) left)
        (emitted mid ++ [false])
    else
      mkRes (val mid)
        (mkSquelch (m_name (st mid)) (m_open (st mid)) (hangtime (st mid)) left)
        (emitted mid)
  else mkRes (val mid) (st mid) (emitted mid).
Proof.
  unfold audioIn. cbv zeta.
  unfold bind at 1. unfold bind at 1.
  destruct (exec (processSamples samples count) s) as [r mid ev].
  sq_unfold.
  destruct (0 <? hangtime_left mid); sq_unfold.
  - destruct (Int.sub (hangtime_left mid) count <=? 0); sq_unfold;
      rewrite ?app_nil_r; reflexivity.
  - rewrite !app_nil_r. reflexivity.
Qed.

(** C1. [audioIn] first runs the detector. If a countdown is then
    running, it is decremented by [count] (the full block, not the
    detector's result); when it thereby reaches zero or less, [m_open]
    is cleared and one notification, [false], is emitted, otherwise
    nothing more happens. With no countdown running the object is left as
    the detector left it. The call always returns the detector's result. *)
Theorem audioIn_counts_down (processSamples : list Z -> Z -> Prog Z)
    (samples : list Z) (count : Z) (s : Squelch) :
  let mid := exec (processSamples samples count) s in
  let out := audioIn processSamples samples count s in
  val out = val mid /\
  (0 < hangtime_left (st mid) ->
   hangtime_left (st out) = Int.sub (hangtime_left (st mid)) count /\
   (Int.in_range (hangtime_left (st mid) - count) ->
    hangtime_left (st out) = hangtime_left (st mid) - count) /\
   hangtime (st out) = hangtime (st mid) /\
   (hangtime_left (st out) <= 0 ->
    m_open (st out) = false /\ emitted out = emitted mid ++ [false]) /\
   (0 < hangtime_left (st out) ->
    m_open (st out) = m_open (st mid) /\ emitted out = emitted mid)) /\
  (hangtime_left (st mid) <= 0 ->
   st out = st mid /\ emitted out = emitted mid).
Proof.
  intros mid out. subst out. rewrite audioIn_eq. fold mid. cbv zeta.
  destruct (Z.ltb_spec 0 (hangtime_left (st mid))) as [Hrun | Hidle].
  - destruct (Z.leb_spec (Int.sub (hangtime_left (st mid)) count) 0)
      as [Hexp | Hleft]; cbn [val st emitted hangtime hangtime_left m_open].
    + split; [reflexivity|]. split; [|intros; lia].
      intros _. repeat split; try reflexivity; try lia.
      intros Hr. unfold Int.sub. now rewrite to_int_in_range.
    + split; [reflexivity|]. split; [|intros; lia].
      intros _. repeat split; try reflexivity; try lia.
      intros Hr. unfold Int.sub. now rewrite to_int_in_range.
  - cbn [val st emitted]. split; [reflexivity|].
    split; [intros; lia | intros _; split; reflexivity].
Qed.

Lemma audioIn_counts_down_witness :
  let out := audioIn Demo.partial [] 400 (mkSquelch "" true 800 400) in
  val out = 200 /\ hangtime_left (st out) = 0 /\
  m_open (st out) = false /\ emitted out = [false].
Proof.
  destruct (audioIn_counts_down Demo.partial [] 400
              (mkSquelch "" true 800 400)) as (Hret & Hrun & _).
  destruct Hrun as (_ & Hleft & _ & Hexp & _); [cbn; lia|].
  cbv zeta. split; [exact Hret|].
  assert (Hzero : hangtime_left
            (st (audioIn Demo.partial [] 400 (mkSquelch "" true 800 400))) = 0).
  { rewrite Hleft; [reflexivity|]. split; vm_compute; discriminate. }
  split; [exact Hzero|]. apply Hexp. rewrite Hzero. lia.
Defined.

(** The hang window of 800 samples fed with two blocks of 400: open after
    the first, closed with one [false] after the second. *)
Example hang_800_two_blocks :
  let opened :=
    run [CallSetHangtime 800; CallSetOpen true; CallSetOpen false] Squelch_new in
  let first := audioIn Demo.idle [] 400 (st opened) in
  let second := audioIn Demo.idle [] 400 (st first) in
  emitted opened = [true] /\
  val (isOpen (st opened)) = true /\
  hangtime_left (st first) = 400 /\
  val (isOpen (st first)) = true /\ emitted first = [] /\
  val (isOpen (st second)) = false /\ emitted second = [false].
Proof. vm_compute. repeat split. Qed.

(** The same, but the detector reports a signal again before the second
    block: nothing closes. *)
Example hang_800_reopened :
  let r :=
    run [CallSetHangtime 800; CallSetOpen true; CallSetOpen false;
         CallAudioIn Demo.idle [] 400; CallSetOpen true;
         CallAudioIn Demo.idle [] 400; CallAudioIn Demo.idle [] 400]
      Squelch_new in
  emitted r = [true] /\ val (isOpen (st r)) = true.
Proof. vm_compute. repeat split. Qed.

(** ** Sequences of calls *)

Lemma initialize_st (cfg : gmap string (gmap string string))
    (rx_name : string) (s : Squelch) :
  exists hang_samples : Z,
    initialize cfg rx_name s = mkRes true (st (setHangtime hang_samples s)) [].
Proof.
  unfold initialize.
  match goal with |- context [setHangtime ?h] => exists h end.
  unfold bind, ret. rewrite setHangtime_eq. reflexivity.
Qed.

Lemma call_preserves (P : Squelch -> Prop) :
  (forall is_open s, P s -> P (st (setOpen is_open s))) ->
  (forall hang_samples s, P s -> P (st (setHangtime hang_samples s))) ->
  (forall processSamples samples count s,
     P s -> P (st (audioIn processSamples samples count s))) ->
  forall (c : Call) (s : Squelch), P s -> P (st (call c s)).
Proof.
  intros Hopen Hhang Haudio [b | h | cfg rx | ps samples count] s Hs;
    cbn [call].
  - apply Hopen, Hs.
  - apply Hhang, Hs.
  - destruct (initialize_st cfg rx s) as [h Hinit].
    unfold bind; rewrite Hinit; cbn [st val ret]. apply Hhang, Hs.
  - unfold bind; cbn [st val ret]. apply Haudio, Hs.
Qed.

Lemma run_preserves (P : Squelch -> Prop) :
  (forall c s, P s -> P (st (call c s))) ->
  forall (cs : list Call) (s : Squelch), P s -> P (st (run cs s)).
Proof.
  intros Hcall cs. induction cs as [|c rest IH]; intros s Hs; cbn [run].
  - exact Hs.
  - unfold bind; cbn [st]. apply IH, Hcall, Hs.
Qed.

Lemma run_app (pre post : list Call) (s : Squelch) :
  st (run (pre ++ post) s) = st (run post (st (run pre s))) /\
  emitted (run (pre ++ post) s) =
    emitted (run pre s) ++ emitted (run post (st (run pre s))).
Proof.
  revert s. induction pre as [|c rest IH]; intros s; cbn [run app].
  - split; reflexivity.
  - unfold bind; cbn [st emitted].
    destruct (IH (st (call c s))) as [-> ->].
    split; [reflexivity | now rewrite app_assoc].
Qed.

Lemma run_requests_app (pre post : list Call) (s : Squelch) :
  run_requests (pre ++ post) s =
  run_requests pre s ++ run_requests post (st (run pre s)).
Proof.
  revert s. induction pre as [|c rest IH]; intros s; cbn [run_requests app run].
  - reflexivity.
  - rewrite IH. unfold bind; cbn [st]. now rewrite app_assoc.
Qed.

(** *** A countdown runs only on an open squelch *)

Lemma setOpen_hang_only (is_open : bool) (s : Squelch) :
  hang_only_when_open s -> hang_only_when_open (st (setOpen is_open s)).
Proof.
  unfold hang_only_when_open. destruct is_open.
  - rewrite setOpen_true_eq. cbn. reflexivity.
  - rewrite setOpen_false_eq.
    destruct (m_open s) eqn:Ho, (Z.leb_spec (hangtime_left s) 0); cbn;
      intros Hs Hleft; try reflexivity; try (now apply Hs); try lia;
      rewrite Ho; now apply Hs.
Qed.

Lemma setHangtime_hang_only (hang_samples : Z) (s : Squelch) :
  hang_only_when_open s -> hang_only_when_open (st (setHangtime hang_samples s)).
Proof. unfold hang_only_when_open. rewrite setHangtime_eq. cbn. auto. Qed.

Lemma audioIn_hang_only (processSamples : list Z -> Z -> Prog Z)
    (samples : list Z) (count : Z) (s : Squelch) :
  hang_only_when_open s ->
  hang_only_when_open (st (audioIn processSamples samples count s)).
Proof.
  intros Hs. rewrite audioIn_eq. cbv zeta.
  pose proof (exec_preserves hang_only_when_open setOpen_hang_only
                setHangtime_hang_only (processSamples samples count) s Hs)
    as Hmid.
  unfold hang_only_when_open in *.
  destruct (Z.ltb_spec 0 (hangtime_left (st (exec (processSamples samples count) s)))).
  - destruct (Z.leb_spec
      (Int.sub (hangtime_left (st (exec (processSamples samples count) s))) count) 0);
      cbn; intros; [lia | auto].
  - cbn. exact Hmid.
Qed.

Lemma call_hang_only (c : Call) (s : Squelch) :
  hang_only_when_open s -> hang_only_when_open (st (call c s)).
Proof.
  apply call_preserves;
    auto using setOpen_hang_only, setHangtime_hang_only, audioIn_hang_only.
Qed.

Lemma new_hang_only : hang_only_when_open Squelch_new.
Proof. unfold hang_only_when_open. cbn. lia. Qed.

(** C10. After any sequence of [setOpen], [setHangtime], [initialize]
    and [audioIn] calls on a new object, a positive [hangtime_left]
    implies that [m_open] is set. Every call keeps this from any state
    that has it. The countdown can however be left negative by the close
    at the end of the hang window. *)
Theorem countdown_implies_open :
  (forall cs : list Call,
     0 < hangtime_left (st (run cs Squelch_new)) ->
     m_open (st (run cs Squelch_new)) = true) /\
  (forall (c : Call) (s : Squelch),
     (0 < hangtime_left s -> m_open s = true) ->
     0 < hangtime_left (st (call c s)) -> m_open (st (call c s)) = true) /\
  (exists cs : list Call,
     hangtime_left (st (run cs Squelch_new)) < 0 /\
     m_open (st (run cs Squelch_new)) = false).
Proof.
  split; [|split].
  - intros cs.
    apply (run_preserves hang_only_when_open call_hang_only cs _ new_hang_only).
  - intros c s. apply (call_hang_only c s).
  - exists [CallSetOpen true; CallSetOpen false; CallAudioIn Demo.idle [] 160].
    split; [vm_compute|]; reflexivity.
Qed.

Lemma countdown_implies_open_witness :
  m_open (st (run [CallSetHangtime 800; CallSetOpen true; CallSetOpen false;
                   CallAudioIn Demo.idle [] 400] Squelch_new)) = true.
Proof.
  destruct countdown_implies_open as (Hreach & _).
  apply Hreach. vm_compute. reflexivity.
Defined.

(** C4. After any sequence of calls on a new object, [isOpen()] returns
    [m_open]: the second operand of its disjunction never decides. *)
Theorem isOpen_is_m_open (cs : list Call) :
  val (isOpen (st (run cs Squelch_new))) = m_open (st (run cs Squelch_new)).
Proof.
  rewrite isOpen_eq; cbn [val].
  pose proof (run_preserves hang_only_when_open call_hang_only cs _
                new_hang_only) as Hinv.
  unfold hang_only_when_open in Hinv.
  destruct (Z.ltb_spec 0 (hangtime_left (st (run cs Squelch_new))))
    as [Hrun | Hidle].
  - rewrite (Hinv Hrun). reflexivity.
  - apply orb_false_r.
Qed.

(** *** The hang window *)

Lemma setOpen_hang_window (is_open : bool) (s : Squelch) :
  hang_window s -> hang_window (st (setOpen is_open s)).
Proof.
  unfold hang_window. intros (Hh & Hopen & Hclosed). destruct is_open.
  - rewrite setOpen_true_eq. cbn. repeat split; intros; try lia; congruence.
  - rewrite setOpen_false_eq.
    destruct (m_open s) eqn:Ho, (Z.leb_spec (hangtime_left s) 0); cbn;
      rewrite ?Ho; repeat split; intros; try lia; try congruence; auto.
Qed.

Lemma setHangtime_hang_window (hang_samples : Z) (s : Squelch) :
  hang_window s -> hang_window (st (setHangtime hang_samples s)).
Proof.
  unfold hang_window. rewrite setHangtime_eq. cbn.
  intros (Hh & Hopen & Hclosed). repeat split; auto; lia.
Qed.

Lemma audioIn_hang_window (processSamples : list Z -> Z -> Prog Z)
    (samples : list Z) (count : Z) (s : Squelch) :
  hang_window s ->
  hang_window (st (audioIn processSamples samples count s)).
Proof.
  intros Hs. rewrite audioIn_eq. cbv zeta.
  pose proof (exec_preserves hang_window setOpen_hang_window
                setHangtime_hang_window (processSamples samples count) s Hs)
    as Hmid.
  set (mid := st (exec (processSamples samples count) s)) in *.
  unfold hang_window in *. destruct Hmid as (Hh & Hopen & Hclosed).
  destruct (Z.ltb_spec 0 (hangtime_left mid)) as [Hrun | Hidle].
  - destruct (Z.leb_spec (Int.sub (hangtime_left mid) count) 0); cbn;
      repeat split; intros; try lia; try congruence.
    destruct (m_open mid) eqn:Ho; [congruence|]. specialize (Hclosed eq_refl). lia.
  - cbn. repeat split; auto.
Qed.

Lemma call_hang_window (c : Call) (s : Squelch) :
  hang_window s -> hang_window (st (call c s)).
Proof.
  apply call_preserves;
    auto using setOpen_hang_window, setHangtime_hang_window,
      audioIn_hang_window.
Qed.

Lemma new_hang_window : hang_window Squelch_new.
Proof. unfold hang_window. cbn. repeat split; intros; try lia; congruence. Qed.

(** C6 as stated fails: the close at the end of the hang window leaves
    [hangtime_left] at the value the decrement produced. With the default
    hangtime of one sample and a block of 160, the squelch ends closed
    with [hangtime_left = -159]. *)
Lemma countdown_left_negative :
  let s := st (run [CallSetOpen true; CallSetOpen false;
                    CallAudioIn Demo.idle [] 160] Squelch_new) in
  ~ (0 <= hangtime_left s /\ (hangtime_left s <> 0 -> m_open s = true)).
Proof.
  cbv zeta. intros [Hneg _]. vm_compute in Hneg. apply Hneg. reflexivity.
Qed.

(** C6, amended. After any sequence of calls on a new object,
    [hangtime_left] is at least 0 while [m_open] is set and at most 0
    while it is not, so it is positive only on an open squelch; the
    hangtime itself is at least 1. Every call keeps the three conditions
    together. *)
Theorem hang_window_holds :
  (forall cs : list Call,
     let s := st (run cs Squelch_new) in
     1 <= hangtime s /\
     (m_open s = true -> 0 <= hangtime_left s) /\
     (m_open s = false -> hangtime_left s <= 0)) /\
  (forall (c : Call) (s : Squelch),
     hang_window s -> hang_window (st (call c s))).
Proof.
  split.
  - intros cs.
    apply (run_preserves hang_window call_hang_window cs _ new_hang_window).
  - apply call_hang_window.
Qed.

Lemma hang_window_holds_witness :
  hang_window (st (call (CallAudioIn (Demo.level 1000) [0; 12; -7] 3)
                     (mkSquelch "rx1" true 800 0))).
Proof.
  destruct hang_window_holds as (_ & Hstep).
  apply Hstep. unfold hang_window. cbn.
  repeat split; intros; try lia; congruence.
Defined.

(** *** Re-opening during the hang window *)

Lemma setOpen_true_active (s : Squelch) : active_open (st (setOpen true s)).
Proof. rewrite setOpen_true_eq. split; reflexivity. Qed.

Lemma exec_active_open {A : Type} (p : Prog A) (s : Squelch) :
  active_open s -> false ∉ requests p s ->
  active_open (st (exec p s)) /\ emitted (exec p s) = [].
Proof.
  revert s.
  induction p as [a | b k IH | h k IH | k IH]; intros s Hs Hreq;
    cbn [exec requests] in *; unfold bind; cbn [st emitted].
  - split; [exact Hs | reflexivity].
  - destruct b; [|exfalso; apply Hreq; left].
    apply not_elem_of_cons in Hreq as [_ Hreq].
    destruct (IH _ (setOpen_true_active s) Hreq) as [Hact ->].
    split; [exact Hact|].
    rewrite setOpen_true_eq. destruct Hs as [-> _]. reflexivity.
  - rewrite setHangtime_eq in *; cbn [st emitted] in *.
    apply IH; [|exact Hreq]. destruct Hs; split; assumption.
  - rewrite isOpen_eq in *; cbn [st val emitted] in *. now apply IH.
Qed.

Lemma call_active_open (c : Call) (s : Squelch) :
  active_open s -> false ∉ call_requests c s ->
  active_open (st (call c s)) /\ emitted (call c s) = [].
Proof.
  destruct c as [b | h | cfg rx | ps samples count]; intros Hs Hreq;
    cbn [call call_requests] in *.
  - destruct b; [|exfalso; apply Hreq; left].
    split; [apply setOpen_true_active|].
    rewrite setOpen_true_eq. destruct Hs as [-> _]. reflexivity.
  - rewrite setHangtime_eq; cbn. destruct Hs; split; [split|]; auto.
  - destruct (initialize_st cfg rx s) as [h Hinit].
    unfold bind; rewrite Hinit; cbn [st val emitted ret app].
    rewrite setHangtime_eq; cbn. destruct Hs; split; [split|]; auto.
  - unfold bind; cbn [st val emitted ret]. rewrite audioIn_eq; cbv zeta.
    destruct (exec_active_open _ s Hs Hreq) as [[Ho Hl] Hev].
    rewrite Hl, Hev. cbn. split; [split|]; auto.
Qed.

Lemma run_active_open (cs : list Call) (s : Squelch) :
  active_open s -> false ∉ run_requests cs s ->
  active_open (st (run cs s)) /\ emitted (run cs s) = [].
Proof.
  revert s. induction cs as [|c rest IH]; intros s Hs Hreq;
    cbn [run run_requests] in *.
  - split; [exact Hs | reflexivity].
  - apply not_elem_of_app in Hreq as [Hc Hrest].
    destruct (call_active_open c s Hs Hc) as [Hact Hev].
    unfold bind; cbn [st emitted]. rewrite Hev.
    apply IH; assumption.
Qed.

Lemma setOpen_keeps_open (is_open : bool) (s : Squelch) :
  m_open s = true -> m_open (st (setOpen is_open s)) = true.
Proof.
  intros Ho. destruct is_open.
  - rewrite setOpen_true_eq. reflexivity.
  - rewrite setOpen_false_eq.
    destruct (m_open s && (hangtime_left s <=? 0)); cbn; exact Ho.
Qed.

Lemma setHangtime_keeps_open (hang_samples : Z) (s : Squelch) :
  m_open s = true -> m_open (st (setHangtime hang_samples s)) = true.
Proof. rewrite setHangtime_eq. cbn. auto. Qed.

Lemma call_open_until_close (c : Call) (s : Squelch) :
  m_open s = true -> false ∉ emitted (call c s) ->
  m_open (st (call c s)) = true.
Proof.
  destruct c as [b | h | cfg rx | ps samples count]; intros Ho Hquiet;
    cbn [call] in *.
  - now apply setOpen_keeps_open.
  - now apply setHangtime_keeps_open.
  - destruct (initialize_st cfg rx s) as [h Hinit].
    unfold bind; rewrite Hinit; cbn [st val ret].
    now apply setHangtime_keeps_open.
  - unfold bind in *; cbn [st val emitted ret] in *.
    rewrite audioIn_eq in *; cbv zeta in *.
    pose proof (exec_preserves (fun s => m_open s = true) setOpen_keeps_open
                  setHangtime_keeps_open (ps samples count) s Ho) as Hmid.
    destruct (0 <? hangtime_left (st (exec (ps samples count) s)));
      [|exact Hmid].
    destruct (Int.sub (hangtime_left (st (exec (ps samples count) s))) count
              <=? 0); cbn [st emitted m_open] in *; [|exact Hmid].
    exfalso. apply Hquiet. rewrite app_nil_r.
    apply elem_of_app. right. left.
Qed.

Lemma run_open_until_close (cs : list Call) (s : Squelch) :
  m_open s = true -> false ∉ emitted (run cs s) ->
  m_open (st (run cs s)) = true.
Proof.
  revert s. induction cs as [|c rest IH]; intros s Ho Hquiet;
    cbn [run] in *.
  - exact Ho.
  - unfold bind in *; cbn [st emitted] in *.
    apply not_elem_of_app in Hquiet as [Hc Hrest].
    apply IH; [|exact Hrest]. now apply call_open_until_close.
Qed.

(** C5. Let [setOpen(true)] be called while a countdown is running, and
    let [pre] be the calls made since. As long as no [setOpen(false)] is
    requested, by the detector or otherwise, no call emits anything, the
    countdown stays cleared and [isOpen()] returns [true]; this holds at
    each point [pre] of a longer sequence [pre ++ post] free of such
    requests. Whatever is requested, [isOpen()] returns [true] for as
    long as no [false] has been emitted. *)
Theorem reopen_cancels_close (s : Squelch) (pre post : list Call) :
  0 < hangtime_left s ->
  (false ∉ run_requests (pre ++ post) (st (setOpen true s)) ->
   (false ∉ emitted (run (CallSetOpen true :: pre) s)) /\
   emitted (run pre (st (setOpen true s))) = [] /\
   hangtime_left (st (run (CallSetOpen true :: pre) s)) = 0 /\
   val (isOpen (st (run (CallSetOpen true :: pre) s))) = true) /\
  (false ∉ emitted (run (CallSetOpen true :: pre) s) ->
   val (isOpen (st (run (CallSetOpen true :: pre) s))) = true).
Proof.
  intros _. split.
  - intros Hreq. rewrite run_requests_app in Hreq.
    apply not_elem_of_app in Hreq as [Hpre _].
    destruct (run_active_open pre _ (setOpen_true_active s) Hpre)
      as [[Ho Hl] Hev].
    cbn [run call]. unfold bind; cbn [st emitted].
    rewrite Hev, app_nil_r, isOpen_eq, Ho, Hl. cbn [val orb].
    repeat split; try reflexivity.
    rewrite setOpen_true_eq; cbn [emitted].
    destruct (m_open s); [apply not_elem_of_nil|].
    intros Hin. apply list_elem_of_singleton in Hin. discriminate.
  - intros Hquiet. rewrite isOpen_eq; cbn [val].
    cbn [run call] in *. unfold bind in *; cbn [st emitted] in *.
    apply not_elem_of_app in Hquiet as [_ Hpre].
    rewrite (run_open_until_close pre (st (setOpen true s)));
      [reflexivity | | exact Hpre].
    rewrite setOpen_true_eq. reflexivity.
Qed.

Lemma reopen_cancels_close_witness :
  let pre := [CallAudioIn Demo.keep [] 400;
              CallAudioIn (Demo.level 1000) [0; 4000; -3] 3] in
  (false ∉ emitted (run (CallSetOpen true :: pre)
                        (mkSquelch "" true 800 400))) /\
  val (isOpen (st (run (CallSetOpen true :: pre)
                     (mkSquelch "" true 800 400)))) = true.
Proof.
  cbv zeta.
  destruct (reopen_cancels_close (mkSquelch "" true 800 400)
              [CallAudioIn Demo.keep [] 400;
               CallAudioIn (Demo.level 1000) [0; 4000; -3] 3]
              [CallSetHangtime 80])
    as (Hcancel & _).
  - cbn. lia.
  - destruct Hcancel as (Hquiet & _ & _ & Hopen).
    + vm_compute. intros Hin. apply elem_of_cons in Hin as [Hin | Hin];
        [discriminate|].
      apply list_elem_of_singleton in Hin. discriminate.
    + split; assumption.
Defined.

(** ** [initialize] *)

Lemma initialize_eq (cfg : gmap string (gmap string string))
    (rx_name : string) (s : Squelch) :
  initialize cfg rx_name s =
  mkRes true
    (st (setHangtime
           match Config.getValue cfg rx_name "SQL_HANGTIME" with
           | Some value => Int.mul (Libc.atoi value) 8
           | None => 0
           end s)) [].
Proof.
  unfold initialize, bind, ret. rewrite setHangtime_eq. reflexivity.
Qed.

(** C8. When the configuration holds a value for [SQL_HANGTIME] in the
    section of the receiver, [initialize] multiplies the number read
    from it by 8 and passes the product to [setHangtime]; the value
    ["100"] gives a hangtime of 800 samples. *)
Theorem initialize_reads_hangtime (cfg : gmap string (gmap string string))
    (rx_name value : string) (s : Squelch) :
  Config.getValue cfg rx_name "SQL_HANGTIME" = Some value ->
  st (initialize cfg rx_name s) =
    st (setHangtime (Int.mul (Libc.atoi value) 8) s) /\
  (Int.in_range (Libc.atoi value * 8) ->
   hangtime (st (initialize cfg rx_name s)) = Z.max (Libc.atoi value * 8) 1) /\
  (value = "100" -> hangtime (st (initialize cfg rx_name s)) = 800).
Proof.
  intros Hcfg. rewrite initialize_eq, Hcfg. cbn [st].
  split; [reflexivity|]. rewrite setHangtime_eq. cbn [st hangtime].
  split.
  - intros Hr. unfold Int.mul. now rewrite to_int_in_range.
  - intros ->. reflexivity.
Qed.

Lemma initialize_reads_hangtime_witness :
  hangtime (st (initialize {[ "rx1" := {[ "SQL_HANGTIME" := "100" ]} ]}
                  "rx1" Squelch_new)) = 800.
Proof.
  destruct (initialize_reads_hangtime
              {[ "rx1" := {[ "SQL_HANGTIME" := "100" ]} ]} "rx1" "100"
              Squelch_new) as (_ & _ & Hms).
  - vm_compute. reflexivity.
  - apply Hms. reflexivity.
Defined.

(** A number beyond the range of [long] reads as -1, and the hangtime
    is 1. *)
Example initialize_beyond_long :
  hangtime (st (initialize
                  {[ "rx1" := {[ "SQL_HANGTIME" := "18446744073709551716" ]} ]}
                  "rx1" Squelch_new)) = 1.
Proof. vm_compute. reflexivity. Qed.

(** C9. [initialize] returns [true] for every configuration, emits
    nothing and touches neither the open flag nor the countdown; the
    hangtime it leaves is at least 1. With no [SQL_HANGTIME] for the
    receiver, and with a value that does not start with a number, the
    hangtime is 1, the value a new object has. *)
Theorem initialize_always_succeeds (cfg : gmap string (gmap string string))
    (rx_name : string) (s : Squelch) :
  val (initialize cfg rx_name s) = true /\
  emitted (initialize cfg rx_name s) = [] /\
  1 <= hangtime (st (initialize cfg rx_name s)) /\
  m_open (st (initialize cfg rx_name s)) = m_open s /\
  hangtime_left (st (initialize cfg rx_name s)) = hangtime_left s /\
  (Config.getValue cfg rx_name "SQL_HANGTIME" = None ->
   hangtime (st (initialize cfg rx_name s)) = hangtime Squelch_new) /\
  (forall value : string,
     Config.getValue cfg rx_name "SQL_HANGTIME" = Some value ->
     Libc.starts_numeric value = false ->
     hangtime (st (initialize cfg rx_name s)) = hangtime Squelch_new).
Proof.
  rewrite initialize_eq. cbn [val st emitted].
  rewrite setHangtime_eq. cbn [st hangtime m_open hangtime_left Squelch_new].
  repeat split; try lia.
  - intros ->. reflexivity.
  - intros value -> Hbad. now rewrite (atoi_not_numeric value Hbad).
Qed.

Lemma initialize_always_succeeds_witness :
  hangtime (st (initialize ∅ "rx1" (mkSquelch "" false 640 0))) = 1 /\
  hangtime (st (initialize {[ "rx1" := {[ "SQL_HANGTIME" := "soon" ]} ]}
                  "rx1" (mkSquelch "" false 640 0))) = 1.
Proof.
  split.
  - destruct (initialize_always_succeeds ∅ "rx1" (mkSquelch "" false 640 0))
      as (_ & _ & _ & _ & _ & Hmissing & _).
    apply Hmissing. reflexivity.
  - destruct (initialize_always_succeeds
                {[ "rx1" := {[ "SQL_HANGTIME" := "soon" ]} ]} "rx1"
                (mkSquelch "" false 640 0))
      as (_ & _ & _ & _ & _ & _ & Hbad).
    apply (Hbad "soon"); vm_compute; reflexivity.
Defined.

(** * Further properties *)

Lemma reset_eq (s : Squelch) : reset s = mkRes tt s [].
Proof. reflexivity. Qed.

(** ** How [setOpen] calls compose *)

(** X7. Repeating a [setOpen] request changes nothing and emits nothing,
    and a [setOpen(true)] after a [setOpen(false)] gives what
    [setOpen(true)] alone gives, notification included. *)
Theorem setOpen_repeat_and_cancel (is_open : bool) (s : Squelch) :
  st (setOpen is_open (st (setOpen is_open s))) = st (setOpen is_open s) /\
  emitted (setOpen is_open (st (setOpen is_open s))) = [] /\
  st (setOpen true (st (setOpen false s))) = st (setOpen true s) /\
  emitted (setOpen true (st (setOpen false s))) = emitted (setOpen true s).
Proof.
  assert (Hcancel : setOpen true (st (setOpen false s)) = setOpen true s).
  { rewrite setOpen_false_eq. cbn [st].
    destruct (m_open s && (hangtime_left s <=? 0)); rewrite !setOpen_true_eq;
      reflexivity. }
  rewrite Hcancel. split; [|split; [|split; reflexivity]].
  - destruct is_open.
    + rewrite !setOpen_true_eq. reflexivity.
    + rewrite (setOpen_false_eq s).
      destruct (m_open s && (hangtime_left s <=? 0)) eqn:Hstart; cbn [st].
      * rewrite setOpen_false_eq. cbn [m_open hangtime hangtime_left m_name].
        destruct (m_open s && (hangtime s <=? 0)); reflexivity.
      * rewrite setOpen_false_eq, Hstart. reflexivity.
  - destruct is_open.
    + rewrite !setOpen_true_eq. reflexivity.
    + rewrite !setOpen_false_eq. reflexivity.
Qed.

(** ** What a run of the detector can emit *)

Lemma exec_keeps_open {A : Type} (p : Prog A) (s : Squelch) :
  m_open s = true -> m_open (st (exec p s)) = true.
Proof.
  apply (exec_preserves (fun s => m_open s = true) setOpen_keeps_open
           setHangtime_keeps_open).
Qed.

(** X5. Whatever the detector does, its run never clears [m_open] and
    never emits [false]: it emits one [true] when it opened a closed
    squelch, and nothing otherwise. *)
Theorem exec_emits_open_only {A : Type} (p : Prog A) (s : Squelch) :
  emitted (exec p s) =
    (if negb (m_open s) && m_open (st (exec p s)) then [true] else []) /\
  (m_open s = true -> m_open (st (exec p s)) = true).
Proof.
  split; [|apply exec_keeps_open].
  revert s.
  induction p as [a | b k IH | h k IH | k IH]; intros s;
    cbn [exec]; unfold bind; cbn [st emitted].
  - cbn. destruct (m_open s); reflexivity.
  - destruct b.
    + rewrite IH. rewrite setOpen_true_eq at 1 2. cbn [st emitted m_open negb andb].
      rewrite (exec_keeps_open k (st (setOpen true s)))
        by (rewrite setOpen_true_eq; reflexivity).
      destruct (m_open s); reflexivity.
    + rewrite IH.
      assert (Hsame : m_open (st (setOpen false s)) = m_open s).
      { rewrite setOpen_false_eq.
        destruct (m_open s && (hangtime_left s <=? 0)); reflexivity. }
      rewrite Hsame. rewrite setOpen_false_eq at 1. reflexivity.
  - rewrite IH. rewrite setHangtime_eq at 1 2. reflexivity.
  - rewrite IH, isOpen_eq. reflexivity.
Qed.

Lemma exec_emits_open_only_witness :
  m_open (st (exec (Demo.level 1000 [0; 12] 2) (mkSquelch "" true 800 0)))
  = true.
Proof.
  apply (exec_emits_open_only (Demo.level 1000 [0; 12] 2)
           (mkSquelch "" true 800 0)).
  reflexivity.
Defined.

(** ** What one [audioIn] call can emit *)

Lemma audioIn_emitted_eq (processSamples : list Z -> Z -> Prog Z)
    (samples : list Z) (count : Z) (s : Squelch) :
  hang_only_when_open s ->
  let mid := exec (processSamples samples count) s in
  let out := audioIn processSamples samples count s in
  emitted out =
    (if negb (m_open s) && m_open (st mid) then [true] else []) ++
    (if m_open (st mid) && negb (m_open (st out)) then [false] else []) /\
  (m_open (st out) = true -> m_open (st mid) = true).
Proof.
  intros Hs mid out. subst out. rewrite audioIn_eq. fold mid. cbv zeta.
  pose proof (exec_preserves hang_only_when_open setOpen_hang_only
                setHangtime_hang_only (processSamples samples count) s Hs)
    as Hmid.
  fold mid in Hmid. unfold hang_only_when_open in Hmid.
  destruct (exec_emits_open_only (processSamples samples count) s)
    as [Hev _].
  fold mid in Hev. rewrite <- Hev.
  destruct (Z.ltb_spec 0 (hangtime_left (st mid))) as [Hrun | Hidle].
  - rewrite (Hmid Hrun).
    destruct (Int.sub (hangtime_left (st mid)) count <=? 0);
      cbn [st emitted m_open negb andb]; rewrite ?Hmid by exact Hrun;
      cbn [negb andb]; rewrite ?app_nil_r; split; auto.
  - cbn [st emitted]. rewrite andb_negb_r, app_nil_r. split; auto.
Qed.

(** X6. On an object where a countdown runs only while open, one
    [audioIn] call emits [true] exactly when the detector opened a closed
    squelch, then [false] exactly when the countdown ran out during the
    call, and nothing else: at most two notifications, an open followed
    by a close. *)
Theorem audioIn_emits (processSamples : list Z -> Z -> Prog Z)
    (samples : list Z) (count : Z) (s : Squelch) :
  hang_only_when_open s ->
  emitted (audioIn processSamples samples count s) =
    (if negb (m_open s) &&
        m_open (st (exec (processSamples samples count) s))
     then [true] else []) ++
    (if m_open (st (exec (processSamples samples count) s)) &&
        negb (m_open (st (audioIn processSamples samples count s)))
     then [false] else []).
Proof.
  intros Hs. apply (audioIn_emitted_eq processSamples samples count s Hs).
Qed.

Lemma audioIn_emits_witness :
  emitted (audioIn blip [] 160 Squelch_new) = [true; false].
Proof.
  rewrite (audioIn_emits blip [] 160 Squelch_new).
  - reflexivity.
  - unfold hang_only_when_open. cbn. lia.
Defined.

(** ** The notifications of a whole life *)

Lemma last_cons (e d : bool) (ev : list bool) :
  List.last (e :: ev) d = List.last ev e.
Proof.
  revert e d. induction ev as [|e' rest IH]; intros e d; [reflexivity|].
  change (List.last (e :: e' :: rest) d) with (List.last (e' :: rest) d).
  rewrite (IH e' d), (IH e' e). reflexivity.
Qed.

Lemma last_app (ev1 ev2 : list bool) (d : bool) :
  List.last (ev1 ++ ev2) d = List.last ev2 (List.last ev1 d).
Proof.
  revert d. induction ev1 as [|e rest IH]; intros d; [reflexivity|].
  cbn [app]. rewrite !last_cons. apply IH.
Qed.

Lemma alternates_app (prev : bool) (ev1 ev2 : list bool) :
  alternates prev ev1 -> alternates (List.last ev1 prev) ev2 ->
  alternates prev (ev1 ++ ev2).
Proof.
  revert prev. induction ev1 as [|e rest IH]; intros prev H1 H2.
  - exact H2.
  - cbn [app alternates] in *. destruct H1 as [He Hrest].
    split; [exact He|]. apply IH; [exact Hrest|].
    now rewrite last_cons in H2.
Qed.

Lemma call_trace (c : Call) (s : Squelch) :
  hang_only_when_open s ->
  alternates (m_open s) (emitted (call c s)) /\
  List.last (emitted (call c s)) (m_open s) = m_open (st (call c s)).
Proof.
  intros Hs. destruct c as [b | h | cfg rx | ps samples count]; cbn [call].
  - destruct b.
    + rewrite setOpen_true_eq. cbn [st emitted m_open].
      destruct (m_open s); cbn; auto.
    + rewrite setOpen_false_eq. cbn [st emitted].
      destruct (m_open s && (hangtime_left s <=? 0)); cbn; auto.
  - rewrite setHangtime_eq. cbn. auto.
  - destruct (initialize_st cfg rx s) as [h Hinit].
    unfold bind; rewrite Hinit; cbn [st val emitted ret app].
    rewrite setHangtime_eq. cbn. auto.
  - unfold bind; cbn [st val emitted ret]. rewrite app_nil_r.
    destruct (audioIn_emitted_eq ps samples count s Hs) as [Hev Hback].
    cbv zeta in Hev, Hback. rewrite Hev.
    pose proof (exec_keeps_open (ps samples count) s) as Hkeep.
    destruct (m_open s), (m_open (st (exec (ps samples count) s))),
      (m_open (st (audioIn ps samples count s)));
      cbn; auto; try (specialize (Hkeep eq_refl); discriminate);
      try (specialize (Hback eq_refl); discriminate).
Qed.

Lemma run_trace (cs : list Call) (s : Squelch) :
  hang_only_when_open s ->
  alternates (m_open s) (emitted (run cs s)) /\
  List.last (emitted (run cs s)) (m_open s) = m_open (st (run cs s)).
Proof.
  revert s. induction cs as [|c rest IH]; intros s Hs; cbn [run].
  - cbn. auto.
  - unfold bind; cbn [st emitted].
    destruct (call_trace c s Hs) as [Halt Hlast].
    destruct (IH (st (call c s)) (call_hang_only c s Hs)) as [Halt' Hlast'].
    rewrite <- Hlast in Halt', Hlast'. split.
    + now apply alternates_app.
    + now rewrite last_app.
Qed.

(** X1. From a state where a countdown runs only while open, whatever
    calls follow, the notifications alternate: the first is the opposite
    of [m_open] at the start, and no value is emitted twice in a row. A
    new object therefore emits [true], [false], [true], ... *)
Theorem notifications_alternate (cs : list Call) (s : Squelch) :
  hang_only_when_open s ->
  alternates (m_open s) (emitted (run cs s)).
Proof. intros Hs. apply (run_trace cs s Hs). Qed.

Lemma notifications_alternate_witness :
  alternates false
    (emitted (run [CallAudioIn blip [] 160; CallSetOpen true;
                   CallAudioIn (Demo.level 1000) [3; -2] 2;
                   CallAudioIn Demo.idle [] 1] Squelch_new)).
Proof.
  apply (notifications_alternate _ Squelch_new).
  unfold hang_only_when_open. cbn. lia.
Defined.

(** X2. After any sequence of calls on a new object, [isOpen()] returns
    the value of the last notification emitted, and [false] when none
    was: a slot that remembers the last value it received knows what
    [isOpen()] returns. *)
Theorem isOpen_is_last_notification (cs : list Call) :
  val (isOpen (st (run cs Squelch_new))) =
  List.last (emitted (run cs Squelch_new)) false.
Proof.
  destruct (run_trace cs Squelch_new new_hang_only) as [_ Hlast].
  cbn [m_open Squelch_new] in Hlast. rewrite Hlast.
  rewrite isOpen_eq; cbn [val].
  pose proof (run_preserves hang_only_when_open call_hang_only cs _
                new_hang_only) as Hinv.
  unfold hang_only_when_open in Hinv.
  destruct (Z.ltb_spec 0 (hangtime_left (st (run cs Squelch_new))))
    as [Hrun | Hidle].
  - rewrite (Hinv Hrun). reflexivity.
  - apply orb_false_r.
Qed.

Lemma isOpen_is_last_notification_example :
  val (isOpen (st (run [CallAudioIn blip [] 160; CallSetOpen true]
                     Squelch_new))) = true /\
  emitted (run [CallAudioIn blip [] 160; CallSetOpen true] Squelch_new)
  = [true; false; true].
Proof. vm_compute. split; reflexivity. Qed.

(** ** Without a request to open *)

Lemma exec_no_open_request {A : Type} (p : Prog A) (s : Squelch) :
  close_pending_or_closed s -> true ∉ requests p s ->
  m_open (st (exec p s)) = m_open s /\
  hangtime_left (st (exec p s)) = hangtime_left s /\
  emitted (exec p s) = [].
Proof.
  revert s.
  induction p as [a | b k IH | h k IH | k IH]; intros s Hs Hreq;
    cbn [exec requests] in *; unfold bind; cbn [st emitted].
  - auto.
  - destruct b; [exfalso; apply Hreq; left|].
    apply not_elem_of_cons in Hreq as [_ Hreq].
    assert (Hnop : setOpen false s = mkRes tt s []).
    { rewrite setOpen_false_eq. unfold close_pending_or_closed in Hs.
      destruct (m_open s) eqn:Ho, (Z.leb_spec (hangtime_left s) 0);
        cbn [andb]; try reflexivity.
      destruct Hs; [discriminate | lia]. }
    rewrite Hnop in *. cbn [st emitted app] in *. now apply IH.
  - rewrite setHangtime_eq in *. cbn [st emitted app] in *.
    apply (IH (mkSquelch (m_name s) (m_open s) (Z.max h 1)
                 (hangtime_left s))); [exact Hs | exact Hreq].
  - rewrite isOpen_eq in *. cbn [st val emitted app] in *. now apply IH.
Qed.

Lemma call_closed (c : Call) (s : Squelch) :
  m_open s = false -> hangtime_left s <= 0 ->
  true ∉ call_requests c s ->
  m_open (st (call c s)) = false /\
  hangtime_left (st (call c s)) = hangtime_left s /\
  emitted (call c s) = [].
Proof.
  intros Ho Hl Hreq.
  destruct c as [b | h | cfg rx | ps samples count];
    cbn [call call_requests] in *.
  - destruct b; [exfalso; apply Hreq; left|].
    rewrite setOpen_false_eq, Ho. cbn. auto.
  - rewrite setHangtime_eq. cbn. auto.
  - destruct (initialize_st cfg rx s) as [h Hinit].
    unfold bind; rewrite Hinit; cbn [st val emitted ret app].
    rewrite setHangtime_eq. cbn. auto.
  - unfold bind; cbn [st val emitted ret]. rewrite app_nil_r.
    destruct (exec_no_open_request (ps samples count) s (or_introl Ho) Hreq)
      as (Ho' & Hl' & Hev).
    rewrite audioIn_eq; cbv zeta. rewrite Hl'.
    destruct (Z.ltb_spec 0 (hangtime_left s)); [lia|].
    cbn [st emitted]. rewrite Ho', Hl', Hev. auto.
Qed.

Lemma run_closed (cs : list Call) (s : Squelch) :
  m_open s = false -> hangtime_left s <= 0 ->
  true ∉ run_requests cs s ->
  m_open (st (run cs s)) = false /\
  hangtime_left (st (run cs s)) = hangtime_left s /\
  emitted (run cs s) = [].
Proof.
  revert s. induction cs as [|c rest IH]; intros s Ho Hl Hreq;
    cbn [run run_requests] in *.
  - auto.
  - apply not_elem_of_app in Hreq as [Hc Hrest].
    destruct (call_closed c s Ho Hl Hc) as (Ho' & Hl' & Hev).
    unfold bind; cbn [st emitted]. rewrite Hev, <- Hl'.
    apply IH; [exact Ho' | lia | exact Hrest].
Qed.

(** X4. A closed squelch with no countdown stays as it is until
    [setOpen(true)] is requested: whatever else is called, audio fed in
    included, nothing is emitted, [hangtime_left] keeps its value and
    [isOpen()] returns [false]. *)
Theorem closed_until_open_request (cs : list Call) (s : Squelch) :
  m_open s = false -> hangtime_left s <= 0 ->
  true ∉ run_requests cs s ->
  emitted (run cs s) = [] /\
  m_open (st (run cs s)) = false /\
  hangtime_left (st (run cs s)) = hangtime_left s /\
  val (isOpen (st (run cs s))) = false.
Proof.
  intros Ho Hl Hreq.
  destruct (run_closed cs s Ho Hl Hreq) as (Ho' & Hl' & Hev).
  rewrite isOpen_eq; cbn [val]. rewrite Ho', Hl', Hev.
  repeat split. destruct (Z.ltb_spec 0 (hangtime_left s)); [lia|reflexivity].
Qed.

Lemma closed_until_open_request_witness :
  emitted (run [CallAudioIn (Demo.level 1000) [5; -900; 17] 3;
                CallSetHangtime 800; CallSetOpen false;
                CallAudioIn Demo.keep [] 4000]
             (mkSquelch "" false 1 (-159))) = [].
Proof.
  apply (closed_until_open_request _ (mkSquelch "" false 1 (-159))).
  - reflexivity.
  - cbn. lia.
  - vm_compute. intros Hin.
    apply elem_of_cons in Hin as [Hin | Hin]; [discriminate|].
    apply list_elem_of_singleton in Hin. discriminate.
Defined.

(** ** How long the squelch hangs *)

Lemma samples_fed_nonneg (cs : list Call) :
  blocks_fit cs -> 0 <= samples_fed cs.
Proof.
  induction cs as [|c rest IH]; cbn [blocks_fit samples_fed]; [lia|].
  destruct c; try exact IH. intros [Hc Hrest]. specialize (IH Hrest). lia.
Qed.

Lemma audioIn_hang_step (processSamples : list Z -> Z -> Prog Z)
    (samples : list Z) (count : Z) (s : Squelch) :
  m_open s = true -> 0 < hangtime_left s <= Int.INT_MAX ->
  0 <= count <= Int.INT_MAX ->
  true ∉ requests (processSamples samples count) s ->
  hangtime_left (st (audioIn processSamples samples count s)) =
    hangtime_left s - count /\
  emitted (audioIn processSamples samples count s) =
    (if hangtime_left s - count <=? 0 then [false] else []) /\
  m_open (st (audioIn processSamples samples count s)) =
    negb (hangtime_left s - count <=? 0).
Proof.
  intros Ho Hl Hc Hreq.
  destruct (exec_no_open_request (processSamples samples count) s
              (or_intror (proj1 Hl)) Hreq) as (Ho' & Hl' & Hev).
  rewrite audioIn_eq; cbv zeta. rewrite Hl', Ho', Hev, Ho.
  assert (Hsub : Int.sub (hangtime_left s) count = hangtime_left s - count).
  { apply to_int_in_range. unfold Int.in_range, Int.INT_MIN, Int.INT_MAX in *.
    lia. }
  rewrite Hsub.
  destruct (Z.ltb_spec 0 (hangtime_left s)); [|lia].
  destruct (hangtime_left s - count <=? 0); cbn; auto.
Qed.

Lemma call_hanging (c : Call) (s : Squelch) :
  m_open s = true -> 0 < hangtime_left s ->
  true ∉ call_requests c s ->
  match c with
  | CallAudioIn _ _ _ => True
  | _ =>
      m_open (st (call c s)) = true /\
      hangtime_left (st (call c s)) = hangtime_left s /\
      emitted (call c s) = []
  end.
Proof.
  intros Ho Hl Hc.
  destruct c as [b | h | cfg rx | ps samples count];
    cbn [call call_requests] in *; [| | |exact I].
  - destruct b; [exfalso; apply Hc; left|].
    rewrite setOpen_false_eq, Ho.
    destruct (Z.leb_spec (hangtime_left s) 0); [lia|]. cbn. auto.
  - rewrite setHangtime_eq. cbn. auto.
  - destruct (initialize_st cfg rx s) as [h Hinit].
    unfold bind; rewrite Hinit; cbn [st val emitted ret app].
    rewrite setHangtime_eq. cbn. auto.
Qed.

Lemma run_hang (cs : list Call) (s : Squelch) :
  m_open s = true -> 0 < hangtime_left s <= Int.INT_MAX ->
  blocks_fit cs -> true ∉ run_requests cs s ->
  (samples_fed cs < hangtime_left s ->
   m_open (st (run cs s)) = true /\
   hangtime_left (st (run cs s)) = hangtime_left s - samples_fed cs /\
   emitted (run cs s) = []) /\
  (hangtime_left s <= samples_fed cs ->
   m_open (st (run cs s)) = false /\ emitted (run cs s) = [false]).
Proof.
  revert s. induction cs as [|c rest IH]; intros s Ho Hl Hfit Hreq;
    cbn [run run_requests] in *.
  - cbn [samples_fed]. split; intros; [cbn; repeat split; auto; lia | lia].
  - apply not_elem_of_app in Hreq as [Hc Hrest].
    unfold bind; cbn [st emitted].
    pose proof (call_hanging c s Ho (proj1 Hl) Hc) as Hctl.
    assert (Hquiet :
      m_open (st (call c s)) = true /\
      hangtime_left (st (call c s)) = hangtime_left s /\
      emitted (call c s) = [] ->
      blocks_fit rest ->
      (samples_fed rest < hangtime_left s ->
       m_open (st (run rest (st (call c s)))) = true /\
       hangtime_left (st (run rest (st (call c s)))) =
         hangtime_left s - samples_fed rest /\
       emitted (call c s) ++ emitted (run rest (st (call c s))) = []) /\
      (hangtime_left s <= samples_fed rest ->
       m_open (st (run rest (st (call c s)))) = false /\
       emitted (call c s) ++ emitted (run rest (st (call c s))) = [false])).
    { intros (Ho' & Hl' & Hev) Hfit'. rewrite Hev, <- Hl'. cbn [app].
      apply IH; [exact Ho' | lia | exact Hfit' | exact Hrest]. }
    destruct c as [b | h | cfg rx | ps samples count];
      cbn [samples_fed blocks_fit] in *;
      [now apply Hquiet | now apply Hquiet | now apply Hquiet |].
    clear Hquiet Hctl. cbn [call_requests] in Hc.
    destruct Hfit as [Hcount Hfit].
    pose proof (samples_fed_nonneg rest Hfit) as Hnn.
    destruct (audioIn_hang_step ps samples count s Ho Hl Hcount Hc)
      as (Hl' & Hev & Ho').
    assert (Hst : st (call (CallAudioIn ps samples count) s) =
                  st (audioIn ps samples count s)) by reflexivity.
    assert (Hem : emitted (call (CallAudioIn ps samples count) s) =
                  emitted (audioIn ps samples count s)).
    { cbn [call]. unfold bind; cbn [emitted ret]. apply app_nil_r. }
    rewrite Hst in *. rewrite Hem, Hev.
    destruct (Z.leb_spec (hangtime_left s - count) 0) as [Hout | Hin];
      cbn [negb] in Ho'.
    + destruct (run_closed rest _ Ho' ltac:(lia) Hrest) as (Hc1 & _ & Hc3).
      rewrite Hc1, Hc3. split; intros; [lia | auto].
    + cbn [app].
      destruct (IH _ Ho' ltac:(lia) Hfit Hrest) as [Hbefore Hafter].
      rewrite Hl' in Hbefore, Hafter. split; intros Hcmp.
      * destruct Hbefore as (? & Hleft & ?); [lia|].
        repeat split; auto. lia.
      * apply Hafter. lia.
Qed.

(** X3. Let a countdown be running on an open squelch. As long as no
    [setOpen(true)] is requested and the blocks have lengths from 0 to
    [INT_MAX], the squelch stays open, silent, while the samples fed to
    [audioIn] add up to less than the countdown, which then holds the
    difference; once they add up to the countdown or more it is closed
    and exactly one notification, [false], has been emitted. Calls to
    [setOpen(false)], [setHangtime] and [initialize] in between change
    neither. *)
Theorem hang_lasts_for_countdown (cs : list Call) (s : Squelch) :
  m_open s = true -> 0 < hangtime_left s <= Int.INT_MAX ->
  blocks_fit cs -> true ∉ run_requests cs s ->
  (samples_fed cs < hangtime_left s ->
   val (isOpen (st (run cs s))) = true /\
   hangtime_left (st (run cs s)) = hangtime_left s - samples_fed cs /\
   emitted (run cs s) = []) /\
  (hangtime_left s <= samples_fed cs ->
   val (isOpen (st (run cs s))) = false /\
   m_open (st (run cs s)) = false /\
   emitted (run cs s) = [false]).
Proof.
  intros Ho Hl Hfit Hreq.
  destruct (run_hang cs s Ho Hl Hfit Hreq) as [Hbefore Hafter].
  split; intros Hcmp.
  - destruct (Hbefore Hcmp) as (Ho' & Hl' & Hev).
    rewrite isOpen_eq; cbn [val]. now rewrite Ho'.
  - destruct (Hafter Hcmp) as (Ho' & Hev).
    rewrite isOpen_eq; cbn [val]. rewrite Ho'. repeat split; auto.
    cbn [orb].
    destruct (Z.ltb_spec 0 (hangtime_left (st (run cs s)))) as [Hpos|];
      [|reflexivity].
    exfalso.
    assert (Hs : hang_only_when_open s) by (intros _; exact Ho).
    pose proof (run_preserves hang_only_when_open call_hang_only cs s Hs
                  Hpos) as Hopen.
    congruence.
Qed.

Lemma hang_lasts_for_countdown_witness :
  let hanging := st (setOpen false (mkSquelch "" true 800 0)) in
  let quiet := CallAudioIn (Demo.level 1000) [4; -31; 250] 399 in
  val (isOpen (st (run [CallAudioIn Demo.idle [] 400; CallSetHangtime 8; quiet]
                     hanging))) = true /\
  emitted (run [CallAudioIn Demo.idle [] 400; CallSetHangtime 8; quiet;
                CallAudioIn Demo.idle [] 1] hanging) = [false].
Proof.
  cbv zeta. split.
  - destruct (hang_lasts_for_countdown
                [CallAudioIn Demo.idle [] 400; CallSetHangtime 8;
                 CallAudioIn (Demo.level 1000) [4; -31; 250] 399]
                (st (setOpen false (mkSquelch "" true 800 0))))
      as ((Hopen & _) & _).
    + reflexivity.
    + vm_compute. split; [reflexivity | discriminate].
    + vm_compute. repeat split; discriminate.
    + vm_compute. intros Hin. apply list_elem_of_singleton in Hin.
      discriminate.
    + vm_compute. reflexivity.
    + exact Hopen.
  - destruct (hang_lasts_for_countdown
                [CallAudioIn Demo.idle [] 400; CallSetHangtime 8;
                 CallAudioIn (Demo.level 1000) [4; -31; 250] 399;
                 CallAudioIn Demo.idle [] 1]
                (st (setOpen false (mkSquelch "" true 800 0))))
      as (_ & Hclosed).
    + reflexivity.
    + vm_compute. split; [reflexivity | discriminate].
    + vm_compute. repeat split; discriminate.
    + vm_compute. intros Hin. apply list_elem_of_singleton in Hin.
      discriminate.
    + apply Hclosed. vm_compute. discriminate.
Defined.

(** ** The hangtime [initialize] leaves *)

Lemma mul8_divide (a : Z) : (8 | Int.mul a 8).
Proof.
  unfold Int.mul, Int.to_int.
  change (2 ^ 32) with 4294967296. change (2 ^ 31) with 2147483648.
  rewrite Z.mod_eq by lia.
  exists (a - 536870912 * ((a * 8 + 2147483648) / 4294967296)). lia.
Qed.

(** X8. The hangtime [initialize] leaves depends on the configuration
    alone, not on the object it is called on: a hangtime set before is
    discarded. It is 1, or a positive multiple of 8. *)
Theorem initialize_from_config_alone (cfg : gmap string (gmap string string))
    (rx_name : string) (s s' : Squelch) :
  hangtime (st (initialize cfg rx_name s)) =
    hangtime (st (initialize cfg rx_name s')) /\
  (hangtime (st (initialize cfg rx_name s)) = 1 \/
   (0 < hangtime (st (initialize cfg rx_name s)) /\
    (8 | hangtime (st (initialize cfg rx_name s))))).
Proof.
  rewrite !initialize_eq. cbn [st]. rewrite !setHangtime_eq. cbn [st hangtime].
  split; [reflexivity|].
  destruct (Config.getValue cfg rx_name "SQL_HANGTIME") as [value|].
  - pose proof (mul8_divide (Libc.atoi value)) as Hdiv.
    destruct (Z.max_spec (Int.mul (Libc.atoi value) 8) 1) as [[? ->] | [? ->]];
      [left; reflexivity | right; split; [lia | exact Hdiv]].
  - left. reflexivity.
Qed.

(** X9. A configured time that reads as zero or less gives the hangtime
    1, provided eight times the number is still an [int]. *)
Theorem initialize_nonpositive (cfg : gmap string (gmap string string))
    (rx_name value : string) (s : Squelch) :
  Config.getValue cfg rx_name "SQL_HANGTIME" = Some value ->
  Libc.atoi value <= 0 ->
  Int.INT_MIN <= Libc.atoi value * 8 ->
  hangtime (st (initialize cfg rx_name s)) = 1.
Proof.
  intros Hcfg Hneg Hfit. rewrite initialize_eq, Hcfg. cbn [st].
  rewrite setHangtime_eq. cbn [st hangtime]. unfold Int.mul.
  rewrite to_int_in_range; [lia|].
  unfold Int.in_range, Int.INT_MIN, Int.INT_MAX in *. lia.
Qed.

Lemma initialize_nonpositive_witness :
  hangtime (st (initialize {[ "rx1" := {[ "SQL_HANGTIME" := "-5" ]} ]}
                  "rx1" (mkSquelch "" false 640 0))) = 1.
Proof.
  apply (initialize_nonpositive _ "rx1" "-5").
  - vm_compute. reflexivity.
  - vm_compute. discriminate.
  - vm_compute. discriminate.
Defined.
